(** * MICASE XML parser: a shallow embedding of [MICASE_XML_Parser.py]

    The development follows the Python module top-down:
    - Python strings and [str.strip];
    - the slice of [xml.etree.ElementTree] the module relies on
      ([Element], [attrib.get], [iter], [find], [findall]);
    - the record emitter [write];
    - the recursive walker [process_utterance];
    - the per-document driver [parseXML] and the batch loop [main].

    Python [str] values are modelled by [string]; a character stands for
    a code point below 256.  Python [int] is [Z].  The output file is the
    ordered list of blocks written to it; [render] gives the text of a
    block and [file_text] the text of the whole file. *)

From Stdlib Require Import List String Ascii ZArith Bool Lia Arith.
From Stdlib Require Import Numbers.DecimalString.
Import ListNotations.
Open Scope string_scope.
Open Scope Z_scope.

(** ** Python strings *)

Module PyStr.

(** [str.isspace] on a single code point below 256: TAB, LF, VT, FF, CR,
    the separators FS, GS, RS, US, SPACE, NEL and NBSP. *)
Definition is_space (c : ascii) : bool :=
  let n := nat_of_ascii c in
  ((9 <=? n) && (n <=? 13) || (28 <=? n) && (n <=? 32)
   || (n =? 133) || (n =? 160))%nat.

(** [s.lstrip()] *)
Fixpoint lstrip (s : string) : string :=
  match s with
  | EmptyString => EmptyString
  | String c s' => if is_space c then lstrip s' else s
  end.

(** [s.rstrip()] *)
Fixpoint rstrip (s : string) : string :=
  match s with
  | EmptyString => EmptyString
  | String c s' =>
      match rstrip s' with
      | EmptyString => if is_space c then EmptyString else String c EmptyString
      | r => String c r
      end
  end.

(** [s.strip()] *)
Definition strip (s : string) : string := rstrip (lstrip s).

(** [bool(s)] for a [str]: the empty string is the only falsy one. *)
Definition nonempty (s : string) : bool :=
  match s with EmptyString => false | String _ _ => true end.

(** [s.startswith(p)] *)
Fixpoint startswith (p s : string) : bool :=
  match p with
  | EmptyString => true
  | String a p' =>
      match s with
      | EmptyString => false
      | String b s' => Ascii.eqb a b && startswith p' s'
      end
  end.

(** [str(n)] for an [int] *)
Definition str_of_int (n : Z) : string := NilZero.string_of_int (Z.to_int n).

Definition nl : string := String (ascii_of_nat 10) EmptyString.

End PyStr.
Import PyStr.

(** ** Python values that reach the emitter

    [write] is called both with positional arguments and through
    [write( *parent_tail)], where [parent_tail] is a heterogeneous list:
    the file object, strings, [None] and an integer. *)

Inductive pyval : Type :=
| VNone
| VFile
| VStr (s : string)
| VInt (n : Z).

(** Truth value of an object, as tested by [if x:] and [x and y]. *)
Definition truthy (v : pyval) : bool :=
  match v with
  | VNone => false
  | VFile => true
  | VStr s => nonempty s
  | VInt n => negb (n =? 0)
  end.

(** Text of [{v}] inside an f-string, that is [format(v, "")]. *)
Definition fmt (v : pyval) : string :=
  match v with
  | VNone => "None"
  | VFile => "<_io.TextIOWrapper>"
  | VStr s => s
  | VInt n => str_of_int n
  end.

(** A value that is [None] or a [str]. *)
Definition of_opt (o : option string) : pyval :=
  match o with Some s => VStr s | None => VNone end.

(** ** ElementTree *)

#[local] Set Warnings "-register-all".

Inductive Element : Type :=
  mkElement {
    tag : string;
    attrib : list (string * string);
    text : option string;
    tail : option string;
    children : list Element
  }.

(** [d.get(key)] on the attribute dictionary *)
Fixpoint get (key : string) (d : list (string * string)) : option string :=
  match d with
  | [] => None
  | (k, v) :: d' => if String.eqb k key then Some v else get key d'
  end.

(** [t and t.strip()] used as a condition, for [t] the [text] or [tail]
    of an element ([None] or a [str]). *)
Definition has_text (t : option string) : bool :=
  match t with
  | None => false
  | Some s => nonempty s && nonempty (strip s)
  end.

(** [t.strip()] for a [t] that passed [has_text]. *)
Definition stripped (t : option string) : string :=
  match t with
  | None => EmptyString
  | Some s => strip s
  end.

(** ** The record emitter *)

Record block : Type :=
  mkBlock {
    b_sp_status : pyval;
    b_l1 : pyval;
    b_person_id : pyval;
    b_text_type : pyval;
    b_original_doc : pyval;
    b_utterance_id : pyval;
    b_text : pyval
  }.

(** The nine strings handed to [output_file.write] for one block. *)
Definition render (b : block) : list string :=
  [ "# sp_status = " ++ fmt (b_sp_status b) ++ nl;
    "# l1 = " ++ fmt (b_l1 b) ++ nl;
    "# person_id = " ++ fmt (b_person_id b) ++ nl;
    "# discipline = NA" ++ nl;
    "# text_type = " ++ fmt (b_text_type b) ++ nl;
    "# original_doc = " ++ fmt (b_original_doc b) ++ nl;
    "# utterance_id = " ++ fmt (b_utterance_id b) ++ nl;
    "# sentence_id = TBD" ++ nl;
    fmt (b_text b) ++ nl ++ nl ].

Definition file : Type := list block.

Definition file_text (f : file) : string :=
  String.concat "" (flat_map render f).

(** [write(output_file, text, sp_status, l1, person_id, text_type,
    original_doc, utterance_id)] *)
Definition write (output_file : file)
    (text sp_status l1 person_id text_type original_doc utterance_id : pyval)
    : file :=
  if truthy text then
    (output_file ++
      [mkBlock sp_status l1 person_id text_type original_doc utterance_id
         text])%list
  else output_file.

(** ** The walker *)

(** Lines 116-120: the stored parent text is written when [parent_tail] is
    a list of exactly seven items whose item 1 is truthy.  The current
    [utterance_id] is appended and the eight items are spread over the
    parameters of [write].  The list mutated by [append] is the caller's
    [parent_tail_copy], which the caller never reads again. *)
Definition flush_parent_tail (parent_tail : option (list pyval))
    (st : file * Z) : file * Z :=
  let '(output_file, utterance_id) := st in
  match parent_tail with
  | Some [_; text; sp_status; l1; person_id; text_type; original_doc] =>
      if truthy text then
        (write output_file text sp_status l1 person_id text_type original_doc
           (VInt utterance_id),
         utterance_id + 1)
      else st
  | _ => st
  end.

(** [child_tail] of lines 87-90 *)
Definition child_tail_of (child : Element) : pyval :=
  if has_text (tail child) then VStr (stripped (tail child)) else VNone.

(** [parent_tail_copy] of lines 91-95; [if parent_tail:] holds for a list
    with at least one item and fails for [None] and for the empty list. *)
Definition parent_tail_copy_of (parent_tail : option (list pyval))
    (child_tail sp_status l1 person_id text_type original_doc : pyval)
    : list pyval :=
  match parent_tail with
  | Some (x :: p) => ((x :: p) ++ [child_tail])%list
  | _ => [VFile; child_tail; sp_status; l1; person_id; text_type; original_doc]
  end.

(** [l1] of line 76 *)
Definition l1_of (a : list (string * string)) : string :=
  match get "FLANG" a with
  | Some v => v
  | None => "English"
  end.

(** [process_utterance(utterance, output_file, text_type, original_doc,
    utterance_id, parent_tail)]; the file after the call is returned
    together with the new [utterance_id]. *)
Fixpoint process_utterance (utterance : Element) (output_file : file)
    (text_type : string) (original_doc : option string) (utterance_id : Z)
    (parent_tail : option (list pyval)) {struct utterance} : file * Z :=
  match utterance with
  | mkElement _ attrib0 text0 _ children0 =>
    let person_id := of_opt (get "WHO" attrib0) in
    let sp_status := of_opt (get "NSS" attrib0) in
    let l1 := VStr (l1_of attrib0) in
    let st :=
      if has_text text0 then
        (write output_file (VStr (stripped text0)) sp_status l1 person_id
           (VStr text_type) (of_opt original_doc) (VInt utterance_id),
         utterance_id + 1)
      else (output_file, utterance_id) in
    let st :=
      fold_left
        (fun (st : file * Z) (child : Element) =>
           let '(output_file, utterance_id) := st in
           if startswith "U" (tag child) then
             process_utterance child output_file text_type original_doc
               utterance_id
               (Some (parent_tail_copy_of parent_tail (child_tail_of child)
                        sp_status l1 person_id (VStr text_type)
                        (of_opt original_doc)))
           else if startswith "OVERLAP" (tag child) && has_text (text child)
           then
             let overlap_text := stripped (text child) in
             let overlap_text :=
               if has_text (tail child)
               then overlap_text ++ " " ++ stripped (tail child)
               else overlap_text in
             (write output_file (VStr overlap_text) sp_status l1 person_id
                (VStr text_type) (of_opt original_doc) (VInt utterance_id),
              utterance_id + 1)
           else if String.eqb (tag child) "FOREIGN" then st
           else if has_text (tail child) then
             (write output_file (VStr (stripped (tail child))) sp_status l1
                person_id (VStr text_type) (of_opt original_doc)
                (VInt utterance_id),
              utterance_id + 1)
           else st)
        children0 st in
    flush_parent_tail parent_tail st
  end.

(** The body of the [for child in list(utterance)] loop, for a fixed
    speaker context. *)
Definition child_step (sp_status l1 person_id : pyval) (text_type : string)
    (original_doc : option string) (parent_tail : option (list pyval))
    (st : file * Z) (child : Element) : file * Z :=
  let '(output_file, utterance_id) := st in
  if startswith "U" (tag child) then
    process_utterance child output_file text_type original_doc utterance_id
      (Some (parent_tail_copy_of parent_tail (child_tail_of child)
               sp_status l1 person_id (VStr text_type) (of_opt original_doc)))
  else if startswith "OVERLAP" (tag child) && has_text (text child) then
    let overlap_text := stripped (text child) in
    let overlap_text :=
      if has_text (tail child)
      then overlap_text ++ " " ++ stripped (tail child)
      else overlap_text in
    (write output_file (VStr overlap_text) sp_status l1 person_id
       (VStr text_type) (of_opt original_doc) (VInt utterance_id),
     utterance_id + 1)
  else if String.eqb (tag child) "FOREIGN" then st
  else if has_text (tail child) then
    (write output_file (VStr (stripped (tail child))) sp_status l1 person_id
       (VStr text_type) (of_opt original_doc) (VInt utterance_id),
     utterance_id + 1)
  else st.

(** Lines 78-82: the text of the utterance before its first child. *)
Definition leading_text (utterance : Element) (output_file : file)
    (text_type : string) (original_doc : option string) (utterance_id : Z)
    : file * Z :=
  if has_text (text utterance) then
    (write output_file (VStr (stripped (text utterance)))
       (of_opt (get "NSS" (attrib utterance)))
       (VStr (l1_of (attrib utterance)))
       (of_opt (get "WHO" (attrib utterance)))
       (VStr text_type) (of_opt original_doc) (VInt utterance_id),
     utterance_id + 1)
  else (output_file, utterance_id).

(** Lines 84-114: the loop of [utterance] run over the children [cs]. *)
Definition children_loop (utterance : Element) (text_type : string)
    (original_doc : option string) (parent_tail : option (list pyval))
    (cs : list Element) (st : file * Z) : file * Z :=
  fold_left
    (child_step (of_opt (get "NSS" (attrib utterance)))
       (VStr (l1_of (attrib utterance)))
       (of_opt (get "WHO" (attrib utterance)))
       text_type original_doc parent_tail)
    cs st.

(** Lines 73-114: everything [process_utterance] does before the stored
    parent text is written. *)
Definition utterance_contents (utterance : Element) (output_file : file)
    (text_type : string) (original_doc : option string) (utterance_id : Z)
    (parent_tail : option (list pyval)) : file * Z :=
  children_loop utterance text_type original_doc parent_tail
    (children utterance)
    (leading_text utterance output_file text_type original_doc utterance_id).

(** The block written for [text] under the speaker context of
    [utterance]. *)
Definition speaker_block (utterance : Element) (text_type : string)
    (original_doc : option string) (utterance_id : Z) (text : string)
    : block :=
  mkBlock (of_opt (get "NSS" (attrib utterance)))
    (VStr (l1_of (attrib utterance)))
    (of_opt (get "WHO" (attrib utterance)))
    (VStr text_type) (of_opt original_doc) (VInt utterance_id) (VStr text).

(** The list built on line 95 for the nested utterance [child] of
    [utterance]. *)
Definition pending_for (utterance child : Element) (text_type : string)
    (original_doc : option string) : list pyval :=
  [VFile; child_tail_of child;
   of_opt (get "NSS" (attrib utterance));
   VStr (l1_of (attrib utterance));
   of_opt (get "WHO" (attrib utterance));
   VStr text_type; of_opt original_doc].

(** [elem.iter(tag)]: the element and its descendants that carry the tag,
    in document order. *)
Fixpoint iter (tg : string) (e : Element) : list Element :=
  match e with
  | mkElement t _ _ _ cs =>
      ((if String.eqb t tg then [e] else []) ++ flat_map (iter tg) cs)%list
  end.

(** [elem.findall('.//BODY/*')]: the children of every [BODY] element
    below [elem]. *)
Definition findall_body_children (root : Element) : list Element :=
  flat_map children (flat_map (iter "BODY") (children root)).

(** [elem.find('.//TERM[@TYPE="SPEECHEVENT"]')]: the first [TERM] element
    below [elem] whose [TYPE] attribute is [SPEECHEVENT]. *)
Definition find_term_speechevent (root : Element) : option Element :=
  find
    (fun e =>
       match get "TYPE" (attrib e) with
       | Some v => String.eqb v "SPEECHEVENT"
       | None => false
       end)
    (flat_map (iter "TERM") (children root)).

(** ** The driver *)

(** Lines 142-143 *)
Definition text_type_of (root : Element) : string :=
  match find_term_speechevent root with
  | Some term_tag =>
      match text term_tag with
      | Some t => if nonempty t then t else "NA"
      | None => "NA"
      end
  | None => "NA"
  end.

(** Lines 146-150: the file written for a parsed document. *)
Definition parse_body (root : Element) : file * Z :=
  let text_type := text_type_of root in
  let original_doc := get "ID" (attrib root) in
  fold_left
    (fun (st : file * Z) (utterance : Element) =>
       let '(output_file, utterance_id) := st in
       if startswith "U" (tag utterance) then
         process_utterance utterance output_file text_type original_doc
           utterance_id None
       else st)
    (findall_body_children root) ([], 1).

(** What [ET.parse] makes of an input file: a tree, or [ET.ParseError]
    with its message. *)
Inductive parsed : Type :=
| ParseError (e : string)
| Tree (root : Element).

(** The part of the world the script acts on: the files it has written,
    by path, and the lines it has printed. *)
Record world : Type :=
  mkWorld {
    files : list (string * file);
    stdout : list string
  }.

Definition print (line : string) (w : world) : world :=
  mkWorld (files w) (stdout w ++ [line])%list.

(** [open(path, 'w')] followed by the writes and the close: the file at
    [path] is created or replaced. *)
Fixpoint store (path : string) (f : file) (fs : list (string * file))
    : list (string * file) :=
  match fs with
  | [] => [(path, f)]
  | (p, g) :: fs' =>
      if String.eqb p path then (p, f) :: fs' else (p, g) :: store path f fs'
  end.

(** [os.path.join(a, b)] for a relative [b] and a nonempty [a] without a
    trailing slash. *)
Definition path_join (a b : string) : string := a ++ "/" ++ b.

(** [parseXML(xmlfile, filename, output_dir)], with [xmlfile] standing for
    the outcome of [ET.parse(xmlfile)]. *)
Definition parseXML (xmlfile : parsed) (filename output_dir : string)
    (w : world) : world :=
  match xmlfile with
  | Tree root =>
      let output_path := path_join output_dir (filename ++ "_Parsed.txt") in
      let '(output_file, _) := parse_body root in
      print ("Created text file: " ++ output_path)
        (mkWorld (store output_path output_file (files w)) (stdout w))
  | ParseError e =>
      print ("Parse error in file " ++ filename ++ ": " ++ e) w
  end.

(** Position of the last dot of [s], if any ([s.rfind('.')]). *)
Fixpoint rfind_dot (s : string) : option nat :=
  match s with
  | EmptyString => None
  | String c s' =>
      match rfind_dot s' with
      | Some i => Some (S i)
      | None => if Ascii.eqb c "." then Some O else None
      end
  end.

(** Some character of [s] is not a dot. *)
Fixpoint has_non_dot (s : string) : bool :=
  match s with
  | EmptyString => false
  | String c s' => negb (Ascii.eqb c ".") || has_non_dot s'
  end.

(** [os.path.splitext(p)[0]] for a [p] without a slash: the extension
    starts at the last dot, unless only dots come before it. *)
Definition splitext_root (p : string) : string :=
  match rfind_dot p with
  | Some d =>
      if has_non_dot (substring 0 d p) then substring 0 d p else p
  | None => p
  end.

(** An entry of [os.listdir(DIR)]: a regular file, with what [ET.parse]
    makes of it, or something [os.path.isfile] rejects. *)
Inductive entry : Type :=
| RegularFile (x : parsed)
| NotAFile.

Definition DIR : string := "XMLs".

(** The body of the [for filename in os.listdir(DIR)] loop. *)
Definition main_step (output_dir : string) (w : world)
    (item : string * entry) : world :=
  let '(filename, e) := item in
  let f := path_join DIR filename in
  match e with
  | RegularFile x => parseXML x (splitext_root filename) output_dir w
  | NotAFile => print ("Error: unable to open file " ++ f) w
  end.

Definition main_in (output_dir : string) (listing : list (string * entry))
    (w : world) : world :=
  print "Parsed text files created successfully"
    (fold_left (main_step output_dir) listing w).

(** The first [main] of the module (lines 156-169). *)
Definition main : list (string * entry) -> world -> world :=
  main_in "XML_Data".

(** The second [main] of the module (lines 175-188), which replaces the
    first one once the module has been read to its end. *)
Definition main' : list (string * entry) -> world -> world :=
  main_in "XMLs_Parsed".

(** ** Sample documents *)

Module Samples.

Definition elt (t : string) (a : list (string * string))
    (x : option string) (cs : list Element) (tl : option string) : Element :=
  mkElement t a x tl cs.

(** [<U WHO="S1">hello there<U WHO="S2">hi</U>thanks</U>] *)
Definition nested : Element :=
  elt "U" [("WHO", "S1")] (Some "hello there")
    [elt "U" [("WHO", "S2")] (Some "hi") [] (Some "thanks")] None.

(** [<U WHO="S1"><OVERLAP>oh</OVERLAP>really</U>] *)
Definition overlap : Element :=
  elt "U" [("WHO", "S1")] None
    [elt "OVERLAP" [] (Some "oh") [] (Some "really")] None.

(** [<U WHO="S1"><U WHO="S2"><U WHO="S3">hi</U>thanks</U></U>] *)
Definition deep : Element :=
  elt "U" [("WHO", "S1")] None
    [elt "U" [("WHO", "S2")] None
       [elt "U" [("WHO", "S3")] (Some "hi") [] (Some "thanks")] None] None.

(** [<U WHO="S1"><U WHO="S2">a</U>one<U WHO="S3">b</U>two</U>] *)
Definition siblings : Element :=
  elt "U" [("WHO", "S1")] None
    [elt "U" [("WHO", "S2")] (Some "a") [] (Some "one");
     elt "U" [("WHO", "S3")] (Some "b") [] (Some "two")] None.

(** [<U WHO="S1"><FOREIGN>bonjour</FOREIGN></U>] *)
Definition foreign : Element :=
  elt "U" [("WHO", "S1")] None [elt "FOREIGN" [] (Some "bonjour") [] None]
    None.

(** [<U WHO="S1"><FOREIGN>bonjour</FOREIGN>my friend</U>] *)
Definition foreign_tail : Element :=
  elt "U" [("WHO", "S1")] None
    [elt "FOREIGN" [] (Some "bonjour") [] (Some "my friend")] None.

(** [<U WHO="S1"><OVERLAP> </OVERLAP>really</U>] *)
Definition overlap_blank : Element :=
  elt "U" [("WHO", "S1")] None
    [elt "OVERLAP" [] (Some " ") [] (Some "really")] None.

(** [<U>hi</U>], a turn without attributes *)
Definition bare : Element := elt "U" [] (Some "hi") [] None.

Definition doc (body : list Element) : Element :=
  elt "MICASE" [("ID", "adv700ju023")] None
    [elt "HEADER" [] None
       [elt "TERM" [("TYPE", "SPEECHEVENT")] (Some "ADV") [] None] None;
     elt "BODY" [] None body None] None.

End Samples.

(** ** Notions used in the statements *)

(** Induction on an element with the hypothesis available for each of its
    children. *)
Section ElementInduction.

Variable P : Element -> Prop.
Hypothesis step :
  forall t a x tl cs, Forall P cs -> P (mkElement t a x tl cs).

Fixpoint Element_children_ind (e : Element) : P e :=
  match e with
  | mkElement t a x tl cs =>
      step t a x tl cs
        ((fix all (l : list Element) : Forall P l :=
            match l with
            | [] => Forall_nil P
            | c :: l' => Forall_cons c (Element_children_ind c) (all l')
            end) cs)
  end.

End ElementInduction.

(** [start, start + 1, ...], [n] numbers in all. *)
Fixpoint zseq (start : Z) (n : nat) : list Z :=
  match n with
  | O => []
  | S n' => start :: zseq (start + 1) n'
  end.

(** [grows st st']: the file of [st'] is the file of [st] followed by new
    blocks numbered from the counter of [st], and the counter of [st'] has
    advanced by the number of new blocks. *)
Definition grows (st st' : file * Z) : Prop :=
  exists rs : list block,
    fst st' = (fst st ++ rs)%list /\
    snd st' = snd st + Z.of_nat (List.length rs) /\
    map b_utterance_id rs = map VInt (zseq (snd st) (List.length rs)).

(** A text that is not empty and has no white space at either end. *)
Definition trimmed (t : string) : Prop :=
  t <> EmptyString /\ strip t = t.

(** The blocks the walker can write for a document with the given
    [text_type] and [original_doc]: a trimmed text under the speaker
    context of some element. *)
Definition emitted (tt : string) (od : option string) (b : block) : Prop :=
  exists (u : Element) (id : Z) (t : string),
    trimmed t /\ b = speaker_block u tt od id t.

(** The pending lists that occur during a walk: none at the top, the list
    of line 95 one level down, longer lists below. *)
Definition wf_pending (tt : string) (od : option string)
    (pt : option (list pyval)) : Prop :=
  match pt with
  | None => True
  | Some l =>
      (exists u c : Element, l = pending_for u c tt od) \/
      (8 <= List.length l)%nat
  end.

(** The document with the text of every FOREIGN element removed. *)
Fixpoint erase_foreign_text (e : Element) : Element :=
  match e with
  | mkElement t a x tl cs =>
      mkElement t a (if String.eqb t "FOREIGN" then None else x) tl
        (map erase_foreign_text cs)
  end.

(** ** Further notions: what the walker reads, what the batch leaves *)

(** The block [b] with its utterance id moved by [k]. *)
Definition renumber (k : Z) (b : block) : block :=
  mkBlock (b_sp_status b) (b_l1 b) (b_person_id b) (b_text_type b)
    (b_original_doc b)
    (match b_utterance_id b with VInt n => VInt (n + k) | v => v end)
    (b_text b).

(** [st2] is [st1] run after the file [out] with the counter moved by
    [k]. *)
Definition shifted (out : file) (k : Z) (st1 st2 : file * Z) : Prop :=
  fst st2 = (out ++ map (renumber k) (fst st1))%list /\
  snd st2 = snd st1 + k.

(** A child that is not a nested utterance, reduced to what the loop of
    lines 84-114 reads of it: its tag, its text when the tag starts with
    OVERLAP, and its tail unless the tag is FOREIGN. *)
Definition prune_other (c : Element) : Element :=
  mkElement (tag c) []
    (if startswith "OVERLAP" (tag c) then text c else None)
    (if String.eqb (tag c) "FOREIGN" then None else tail c)
    [].

(** An utterance reduced to what the walker reads of it. *)
Fixpoint prune (e : Element) : Element :=
  match e with
  | mkElement t a x tl cs =>
      mkElement t a x tl
        (map (fun c => if startswith "U" (tag c) then prune c
                       else prune_other c) cs)
  end.

(** The element [e] without its tail. *)
Definition without_tail (e : Element) : Element :=
  mkElement (tag e) (attrib e) (text e) None (children e).

(** The utterance [e] with the tail removed from every nested utterance
    below it, at every depth. *)
Fixpoint drop_nested_tails (e : Element) : Element :=
  match e with
  | mkElement t a x tl cs =>
      mkElement t a x tl
        (map (fun c => if startswith "U" (tag c)
                       then without_tail (drop_nested_tails c)
                       else c) cs)
  end.

(** No text that the walker would write: the leading text is blank, and
    so are the tail of every child that is not FOREIGN, the text of every
    OVERLAP child, and all of this again inside nested utterances. *)
Fixpoint quiet (e : Element) : bool :=
  match e with
  | mkElement _ _ x _ cs =>
      negb (has_text x) &&
      forallb
        (fun c =>
           if startswith "U" (tag c)
           then negb (has_text (tail c)) && quiet c
           else if startswith "OVERLAP" (tag c) && has_text (text c)
           then false
           else String.eqb (tag c) "FOREIGN" || negb (has_text (tail c)))
        cs
  end.

(** The file found at [path], if any. *)
Fixpoint read (path : string) (fs : list (string * file)) : option file :=
  match fs with
  | [] => None
  | (p, f) :: fs' => if String.eqb p path then Some f else read path fs'
  end.

(** The path [parseXML] writes to for the directory entry [filename]. *)
Definition output_path (output_dir filename : string) : string :=
  path_join output_dir (splitext_root filename ++ "_Parsed.txt").


(** The blocks of the last entry of [listing] that is written to [path],
    if there is one. *)
Fixpoint last_written (output_dir : string)
    (listing : list (string * entry)) (path : string) : option file :=
  match listing with
  | [] => None
  | (filename, e) :: rest =>
      match last_written output_dir rest path with
      | Some f => Some f
      | None =>
          match e with
          | RegularFile (Tree root) =>
              if String.eqb (output_path output_dir filename) path
              then Some (fst (parse_body root))
              else None
          | _ => None
          end
      end
  end.

(** The module run as a script: the call of line 172 runs the first
    [main], the call of line 191 the second one, over the same directory
    listing. *)
Definition script (listing : list (string * entry)) (w : world) : world :=
  main' listing (main listing w).

(** * Properties *)

(** ** Strings *)

Section StringFacts.

Lemma rstrip_head (c : ascii) (s : string) :
  rstrip (String c s) = EmptyString \/ exists r, rstrip (String c s) = String c r.
Proof.
  simpl. destruct (rstrip s).
  - destruct (is_space c); [now left | right; now eexists].
  - right; now eexists.
Qed.

Lemma lstrip_head (s : string) (c : ascii) (r : string) :
  lstrip s = String c r -> is_space c = false.
Proof.
  induction s as [|a s IH]; simpl; [discriminate|].
  destruct (is_space a) eqn:E; auto.
  intros H; injection H as -> _. exact E.
Qed.

Lemma strip_head (s : string) (c : ascii) (r : string) :
  strip s = String c r -> is_space c = false.
Proof.
  unfold strip. destruct (lstrip s) as [|a l] eqn:E; [discriminate|].
  intros H. destruct (rstrip_head a l) as [H0 | [r' H0]]; rewrite H0 in H.
  - discriminate.
  - injection H as -> _. eapply lstrip_head; eauto.
Qed.

Lemma lstrip_fix (c : ascii) (r : string) :
  is_space c = false -> lstrip (String c r) = String c r.
Proof. intros H; simpl; now rewrite H. Qed.

Lemma rstrip_idem (s : string) : rstrip (rstrip s) = rstrip s.
Proof.
  induction s as [|c s IH]; simpl; auto.
  destruct (rstrip s) as [|a r] eqn:E.
  - destruct (is_space c) eqn:Ec; simpl; auto. now rewrite Ec.
  - change (rstrip (String c (String a r))) with
      (match rstrip (String a r) with
       | EmptyString => if is_space c then EmptyString else String c EmptyString
       | x => String c x
       end).
    now rewrite IH.
Qed.

Lemma strip_idem (s : string) : strip (strip s) = strip s.
Proof.
  destruct (strip s) as [|c r] eqn:E; [reflexivity|].
  pose proof (strip_head _ _ _ E) as Hc.
  unfold strip. rewrite (lstrip_fix _ _ Hc).
  rewrite <- E. unfold strip. apply rstrip_idem.
Qed.

Lemma rstrip_of_strip (s : string) : rstrip (strip s) = strip s.
Proof. unfold strip. apply rstrip_idem. Qed.

Lemma rstrip_app (a b : string) :
  b <> EmptyString -> rstrip b = b -> rstrip (a ++ b) = a ++ b.
Proof.
  intros Hb Hr. induction a as [|c a IH]; simpl; auto.
  rewrite IH. destruct (a ++ b) eqn:E; auto.
  destruct a; simpl in E; [contradiction | discriminate].
Qed.

Lemma rstrip_cons (c : ascii) (b : string) :
  b <> EmptyString -> rstrip b = b -> rstrip (String c b) = String c b.
Proof. intros Hb Hr. apply (rstrip_app (String c EmptyString) b Hb Hr). Qed.

(** Two stripped texts joined by one space form a stripped text. *)
Lemma strip_join (a b : string) :
  strip a <> EmptyString -> strip b <> EmptyString ->
  strip (strip a ++ " " ++ strip b) = strip a ++ " " ++ strip b.
Proof.
  intros Ha Hb.
  destruct (strip a) as [|c r] eqn:Ea; [contradiction|].
  pose proof (strip_head _ _ _ Ea) as Hc.
  unfold strip at 1.
  change (String c r ++ " " ++ strip b)
    with (String c (r ++ " " ++ strip b)).
  rewrite (lstrip_fix _ _ Hc).
  change (String c (r ++ " " ++ strip b))
    with (String c r ++ String " " (strip b)).
  apply rstrip_app; [discriminate|].
  apply rstrip_cons; [assumption | apply rstrip_of_strip].
Qed.

Lemma nonempty_true (s : string) : nonempty s = true <-> s <> EmptyString.
Proof. destruct s; simpl; split; congruence. Qed.

Lemma has_text_stripped (t : option string) :
  has_text t = true -> stripped t <> EmptyString.
Proof.
  destruct t as [s|]; simpl; [|discriminate].
  rewrite andb_true_iff, !nonempty_true. tauto.
Qed.

Lemma startswith_overlap_not_u (t : string) :
  startswith "OVERLAP" t = true -> startswith "U" t = false.
Proof.
  destruct t as [|c t]; cbn [startswith]; [discriminate|].
  destruct (Ascii.eqb "O" c) eqn:E; [|discriminate].
  apply Ascii.eqb_eq in E. subst c. reflexivity.
Qed.

Lemma startswith_overlap_not_foreign (t : string) :
  startswith "OVERLAP" t = true -> String.eqb t "FOREIGN" = false.
Proof.
  destruct t as [|c t]; cbn [startswith]; [discriminate|].
  destruct (Ascii.eqb "O" c) eqn:E; [|discriminate].
  apply Ascii.eqb_eq in E. subst c. reflexivity.
Qed.

Lemma startswith_u_not_foreign (t : string) :
  startswith "U" t = true -> String.eqb t "FOREIGN" = false.
Proof.
  destruct t as [|c t]; cbn [startswith]; [discriminate|].
  destruct (Ascii.eqb "U" c) eqn:E; [|discriminate].
  apply Ascii.eqb_eq in E. subst c. reflexivity.
Qed.

End StringFacts.

(** ** The shape of the walker *)

Lemma process_utterance_unfold (u : Element) (out : file) (tt : string)
    (od : option string) (id : Z) (pt : option (list pyval)) :
  process_utterance u out tt od id pt =
  flush_parent_tail pt (utterance_contents u out tt od id pt).
Proof. destruct u; reflexivity. Qed.

Lemma children_loop_app (u : Element) (tt : string) (od : option string)
    (pt : option (list pyval)) (pre post : list Element) (st : file * Z) :
  children_loop u tt od pt (pre ++ post) st =
  children_loop u tt od pt post (children_loop u tt od pt pre st).
Proof. unfold children_loop. apply fold_left_app. Qed.

Lemma children_loop_cons (u : Element) (tt : string) (od : option string)
    (pt : option (list pyval)) (c : Element) (post : list Element)
    (st : file * Z) :
  children_loop u tt od pt (c :: post) st =
  children_loop u tt od pt post
    (child_step (of_opt (get "NSS" (attrib u))) (VStr (l1_of (attrib u)))
       (of_opt (get "WHO" (attrib u))) tt od pt st c).
Proof. reflexivity. Qed.

(** A pending list of any length other than seven is never written. *)
Lemma flush_other_length (l : list pyval) (st : file * Z) :
  List.length l <> 7%nat -> flush_parent_tail (Some l) st = st.
Proof.
  intros H. destruct st as [out id]. unfold flush_parent_tail.
  do 8 (destruct l as [|? l]; try reflexivity).
  simpl in H. congruence.
Qed.

Lemma flush_none (st : file * Z) : flush_parent_tail None st = st.
Proof. now destruct st. Qed.

Lemma flush_pending_for (u c : Element) (tt : string) (od : option string)
    (out : file) (id : Z) :
  flush_parent_tail (Some (pending_for u c tt od)) (out, id) =
  if has_text (tail c)
  then ((out ++ [speaker_block u tt od id (stripped (tail c))])%list, id + 1)
  else (out, id).
Proof.
  unfold flush_parent_tail, pending_for, child_tail_of.
  destruct (has_text (tail c)) eqn:E; [|reflexivity].
  apply has_text_stripped, nonempty_true in E.
  unfold truthy, write, truthy. now rewrite E.
Qed.

(** ** Numbering *)

Lemma zseq_app (n m : nat) (s : Z) :
  zseq s (n + m) = (zseq s n ++ zseq (s + Z.of_nat n) m)%list.
Proof.
  revert s. induction n as [|n IH]; intros s.
  - simpl. now rewrite Z.add_0_r.
  - cbn [zseq Nat.add app]. rewrite IH. do 3 f_equal. lia.
Qed.

Lemma grows_refl (st : file * Z) : grows st st.
Proof.
  exists []. simpl. rewrite app_nil_r, Z.add_0_r. auto.
Qed.

Lemma grows_trans (a b c : file * Z) : grows a b -> grows b c -> grows a c.
Proof.
  intros (r1 & F1 & N1 & I1) (r2 & F2 & N2 & I2).
  exists (r1 ++ r2)%list. rewrite F2, F1, N2, N1, app_assoc.
  rewrite length_app, Nat2Z.inj_add, zseq_app, !map_app, I1, I2, N1.
  repeat split; auto. lia.
Qed.

Lemma grows_write (out : file) (id : Z)
    (text sp_status l1 person_id text_type original_doc : pyval) :
  truthy text = true ->
  grows (out, id)
    (write out text sp_status l1 person_id text_type original_doc (VInt id),
     id + 1).
Proof.
  intros H. unfold write. rewrite H.
  eexists [_]. simpl. repeat split.
Qed.

Lemma truthy_stripped (t : option string) :
  has_text t = true -> truthy (VStr (stripped t)) = true.
Proof. intros H. apply nonempty_true, has_text_stripped, H. Qed.

Lemma grows_fold (f : file * Z -> Element -> file * Z) (cs : list Element) :
  Forall (fun c => forall st, grows st (f st c)) cs ->
  forall st, grows st (fold_left f cs st).
Proof.
  induction 1 as [|c cs Hc _ IH]; intros st; simpl.
  - apply grows_refl.
  - eapply grows_trans; [apply Hc | apply IH].
Qed.

Lemma grows_flush (pt : option (list pyval)) (st : file * Z) :
  grows st (flush_parent_tail pt st).
Proof.
  destruct st as [out id]. unfold flush_parent_tail.
  destruct pt as [l|]; [|apply grows_refl].
  do 8 (destruct l as [|? l]; try apply grows_refl).
  destruct (truthy p0) eqn:E; [|apply grows_refl].
  now apply grows_write.
Qed.

Lemma grows_leading_text (u : Element) (out : file) (tt : string)
    (od : option string) (id : Z) :
  grows (out, id) (leading_text u out tt od id).
Proof.
  unfold leading_text. destruct (has_text (text u)) eqn:E.
  - apply grows_write, truthy_stripped, E.
  - apply grows_refl.
Qed.

(** Every call of the walker appends consecutively numbered blocks and
    returns the counter advanced by their number. *)
Lemma grows_process_utterance (u : Element) :
  forall (tt : string) (od : option string) (pt : option (list pyval))
         (st : file * Z),
    grows st (process_utterance u (fst st) tt od (snd st) pt).
Proof.
  induction u as [t a x tl cs IH] using Element_children_ind.
  intros tt od pt [out id]. rewrite process_utterance_unfold.
  eapply grows_trans; [|apply grows_flush].
  unfold utterance_contents.
  eapply grows_trans; [apply grows_leading_text|].
  unfold children_loop. apply grows_fold.
  cbn [children]. eapply Forall_impl; [|exact IH].
  intros c Hc [o i]. unfold child_step.
  destruct (startswith "U" (tag c)); [apply (Hc _ _ _ (o, i))|].
  destruct (startswith "OVERLAP" (tag c) && has_text (text c)) eqn:E.
  { apply grows_write. apply andb_true_iff in E as [_ E].
    pose proof (has_text_stripped _ E) as Hne.
    destruct (has_text (tail c)); apply nonempty_true; auto.
    destruct (stripped (text c)); [contradiction | discriminate]. }
  destruct (String.eqb (tag c) "FOREIGN"); [apply grows_refl|].
  destruct (has_text (tail c)) eqn:Et; [|apply grows_refl].
  apply grows_write, truthy_stripped, Et.
Qed.

Lemma grows_child_step (sp_status l1 person_id : pyval) (tt : string)
    (od : option string) (pt : option (list pyval)) (st : file * Z)
    (c : Element) :
  grows st (child_step sp_status l1 person_id tt od pt st c).
Proof.
  destruct st as [o i]. unfold child_step.
  destruct (startswith "U" (tag c));
    [apply (grows_process_utterance c _ _ _ (o, i))|].
  destruct (startswith "OVERLAP" (tag c) && has_text (text c)) eqn:E.
  { apply grows_write. apply andb_true_iff in E as [_ E].
    pose proof (has_text_stripped _ E) as Hne.
    destruct (has_text (tail c)); apply nonempty_true; auto.
    destruct (stripped (text c)); [contradiction | discriminate]. }
  destruct (String.eqb (tag c) "FOREIGN"); [apply grows_refl|].
  destruct (has_text (tail c)) eqn:Et; [|apply grows_refl].
  apply grows_write, truthy_stripped, Et.
Qed.

Lemma grows_children_loop (u : Element) (tt : string) (od : option string)
    (pt : option (list pyval)) (cs : list Element) (st : file * Z) :
  grows st (children_loop u tt od pt cs st).
Proof.
  unfold children_loop. apply grows_fold, Forall_forall.
  intros c _ st'. apply grows_child_step.
Qed.

Lemma grows_parse_body (root : Element) : grows ([], 1) (parse_body root).
Proof.
  unfold parse_body. apply grows_fold. apply Forall_forall.
  intros u _ [out id].
  destruct (startswith "U" (tag u)).
  - apply (grows_process_utterance u _ _ _ (out, id)).
  - apply grows_refl.
Qed.

(** ** What the walker writes *)

Lemma trimmed_stripped (t : option string) :
  has_text t = true -> trimmed (stripped t).
Proof.
  intros H. split; [now apply has_text_stripped|].
  destruct t; [apply strip_idem | discriminate].
Qed.

Lemma trimmed_overlap (x tl : option string) :
  has_text x = true -> has_text tl = true ->
  trimmed (stripped x ++ " " ++ stripped tl).
Proof.
  intros Hx Ht. pose proof (has_text_stripped _ Hx) as Nx.
  pose proof (has_text_stripped _ Ht) as Nt.
  destruct x as [a|], tl as [b|]; try discriminate. cbn [stripped] in *.
  split; [|now apply strip_join].
  destruct (strip a); [contradiction | discriminate].
Qed.

Lemma wf_pending_child (u c : Element) (tt : string) (od : option string)
    (pt : option (list pyval)) :
  wf_pending tt od pt ->
  wf_pending tt od
    (Some (parent_tail_copy_of pt (child_tail_of c)
             (of_opt (get "NSS" (attrib u))) (VStr (l1_of (attrib u)))
             (of_opt (get "WHO" (attrib u))) (VStr tt) (of_opt od))).
Proof.
  destruct pt as [[|x p]|]; cbn [wf_pending parent_tail_copy_of]; intros H.
  - left. now exists u, c.
  - right. rewrite length_app.
    destruct H as [(u' & c' & E) | H]; [rewrite E|];
      cbn [pending_for List.length] in *; lia.
  - left. now exists u, c.
Qed.

Lemma emitted_write (u : Element) (tt : string) (od : option string)
    (out : file) (id : Z) (t : string) :
  trimmed t -> Forall (emitted tt od) out ->
  Forall (emitted tt od)
    (write out (VStr t) (of_opt (get "NSS" (attrib u)))
       (VStr (l1_of (attrib u))) (of_opt (get "WHO" (attrib u)))
       (VStr tt) (of_opt od) (VInt id)).
Proof.
  intros Ht Hout. unfold write.
  destruct (truthy (VStr t)); [|assumption].
  apply Forall_app. split; [assumption|].
  constructor; [|constructor]. now exists u, id, t.
Qed.

Lemma emitted_flush (tt : string) (od : option string)
    (pt : option (list pyval)) (st : file * Z) :
  wf_pending tt od pt -> Forall (emitted tt od) (fst st) ->
  Forall (emitted tt od) (fst (flush_parent_tail pt st)).
Proof.
  destruct st as [out id]. destruct pt as [l|]; [|now rewrite flush_none].
  intros [(u & c & ->) | H] Hout.
  - rewrite flush_pending_for. destruct (has_text (tail c)) eqn:E; auto.
    cbn [fst]. apply Forall_app. split; [assumption|].
    constructor; [|constructor].
    exists u, id, (stripped (tail c)). split; [now apply trimmed_stripped|auto].
  - rewrite flush_other_length; [assumption | lia].
Qed.

Lemma emitted_fold (tt : string) (od : option string)
    (f : file * Z -> Element -> file * Z) (cs : list Element) :
  Forall (fun c => forall st, Forall (emitted tt od) (fst st) ->
                              Forall (emitted tt od) (fst (f st c))) cs ->
  forall st, Forall (emitted tt od) (fst st) ->
             Forall (emitted tt od) (fst (fold_left f cs st)).
Proof.
  induction 1 as [|c cs Hc _ IH]; intros st Hst; simpl; auto.
Qed.

(** Every block the walker adds is a trimmed text under the speaker
    context of some element of the document. *)
Lemma emitted_process_utterance (u : Element) :
  forall (tt : string) (od : option string) (pt : option (list pyval))
         (out : file) (id : Z),
    wf_pending tt od pt -> Forall (emitted tt od) out ->
    Forall (emitted tt od) (fst (process_utterance u out tt od id pt)).
Proof.
  induction u as [t a x tl cs IH] using Element_children_ind.
  intros tt od pt out id Hpt Hout. rewrite process_utterance_unfold.
  apply emitted_flush; [assumption|].
  unfold utterance_contents, children_loop. apply emitted_fold.
  - cbn [children]. eapply Forall_impl; [|exact IH].
    intros c Hc [o i] Ho. cbn [fst] in Ho. unfold child_step.
    set (u := mkElement t a x tl cs).
    destruct (startswith "U" (tag c)).
    { apply Hc; [|assumption]. apply (wf_pending_child u c), Hpt. }
    destruct (startswith "OVERLAP" (tag c) && has_text (text c)) eqn:E.
    { apply andb_true_iff in E as [_ E]. cbn [fst].
      apply (emitted_write u); [|assumption].
      destruct (has_text (tail c)) eqn:Et.
      - now apply trimmed_overlap.
      - now apply trimmed_stripped. }
    destruct (String.eqb (tag c) "FOREIGN"); [assumption|].
    destruct (has_text (tail c)) eqn:Et; [|assumption].
    cbn [fst]. apply (emitted_write u); [|assumption].
    now apply trimmed_stripped.
  - unfold leading_text. destruct (has_text (text _)) eqn:E; [|assumption].
    cbn [fst]. apply (emitted_write (mkElement t a x tl cs)); [|assumption].
    now apply trimmed_stripped.
Qed.

Lemma emitted_parse_body (root : Element) :
  Forall (emitted (text_type_of root) (get "ID" (attrib root)))
    (fst (parse_body root)).
Proof.
  unfold parse_body. apply emitted_fold; [|constructor].
  apply Forall_forall. intros u _ [out id] Hout. cbn [fst] in Hout.
  destruct (startswith "U" (tag u)); [|assumption].
  apply emitted_process_utterance; [exact I | assumption].
Qed.

(** ** Utterance numbering *)

(** C1.  The blocks written for a document carry the utterance ids
    1, 2, 3, ... in the order they are written, and the counter ends one
    past the last id.  More generally every call of the walker, whatever
    the counter and the pending parent text it is entered with, appends
    blocks numbered consecutively from that counter and returns the
    counter advanced by exactly the number of blocks it appended: no id
    is shared or skipped, and a call that writes nothing returns the
    counter unchanged. *)
Theorem C1_utterance_ids_consecutive :
  (forall root : Element,
      map b_utterance_id (fst (parse_body root)) =
        map VInt (zseq 1 (List.length (fst (parse_body root)))) /\
      snd (parse_body root) =
        1 + Z.of_nat (List.length (fst (parse_body root)))) /\
  (forall (u : Element) (out : file) (tt : string) (od : option string)
          (id : Z) (pt : option (list pyval)),
      exists rs : list block,
        process_utterance u out tt od id pt =
          ((out ++ rs)%list, id + Z.of_nat (List.length rs)) /\
        map b_utterance_id rs = map VInt (zseq id (List.length rs))).
Proof.
  split.
  - intros root. destruct (grows_parse_body root) as (rs & F & N & I).
    cbn [fst snd app] in F, N, I. rewrite F, N. auto.
  - intros u out tt od id pt.
    destruct (grows_process_utterance u tt od pt (out, id))
      as (rs & F & N & I).
    cbn [fst snd] in F, N, I. exists rs. split; [|assumption].
    rewrite <- F, <- N. apply surjective_pairing.
Qed.

(** ** The children of an utterance, one by one *)

(** The walk of [u] split at one of its children. *)
Lemma process_utterance_at (u : Element) (pre : list Element) (c : Element)
    (post : list Element) (out : file) (tt : string) (od : option string)
    (id : Z) (pt : option (list pyval)) :
  children u = (pre ++ c :: post)%list ->
  process_utterance u out tt od id pt =
  flush_parent_tail pt
    (children_loop u tt od pt post
       (child_step (of_opt (get "NSS" (attrib u))) (VStr (l1_of (attrib u)))
          (of_opt (get "WHO" (attrib u))) tt od pt
          (children_loop u tt od pt pre (leading_text u out tt od id)) c)).
Proof.
  intros H. rewrite process_utterance_unfold. unfold utterance_contents.
  now rewrite H, children_loop_app, children_loop_cons.
Qed.

(** C6.  When the loop of [u] reaches a child whose tag starts with
    OVERLAP and whose own text is not blank, it writes exactly one block
    under the speaker context of [u], numbered with the current counter,
    and advances the counter by one.  The text of the block is the trimmed
    text of the span, followed by one space and the trimmed tail when the
    tail is not blank. *)
Theorem C6_overlap_span_one_block (u : Element) (pre : list Element)
    (c : Element) (post : list Element) (out : file) (tt : string)
    (od : option string) (id : Z) (pt : option (list pyval)) :
  children u = (pre ++ c :: post)%list ->
  startswith "OVERLAP" (tag c) = true ->
  has_text (text c) = true ->
  let st := children_loop u tt od pt pre (leading_text u out tt od id) in
  process_utterance u out tt od id pt =
  flush_parent_tail pt
    (children_loop u tt od pt post
       ((fst st ++
           [speaker_block u tt od (snd st)
              (if has_text (tail c)
               then stripped (text c) ++ " " ++ stripped (tail c)
               else stripped (text c))])%list,
        snd st + 1)).
Proof.
  intros H Htag Htext st. rewrite (process_utterance_at u pre c post); auto.
  fold st. destruct st as [o i]. do 2 f_equal.
  unfold child_step. rewrite (startswith_overlap_not_u _ Htag), Htag, Htext.
  cbn [andb fst snd]. unfold write, speaker_block.
  assert (E : truthy
                (VStr (if has_text (tail c)
                       then stripped (text c) ++ " " ++ stripped (tail c)
                       else stripped (text c))) = true).
  { apply nonempty_true. pose proof (has_text_stripped _ Htext) as N.
    destruct (has_text (tail c)); auto.
    destruct (stripped (text c)); [contradiction | discriminate]. }
  now rewrite E.
Qed.

(** The overlap span "oh" followed by "really" under speaker S1 gives the
    single block "oh really" of S1. *)
Lemma C6_overlap_scenario :
  process_utterance Samples.overlap [] "ADV" (Some "adv700ju023") 1 None =
  ([mkBlock VNone (VStr "English") (VStr "S1") (VStr "ADV")
      (VStr "adv700ju023") (VInt 1) (VStr "oh really")], 2).
Proof.
  exact (C6_overlap_span_one_block Samples.overlap []
           (Samples.elt "OVERLAP" [] (Some "oh") [] (Some "really")) []
           [] "ADV" (Some "adv700ju023") 1 None
           eq_refl eq_refl eq_refl).
Defined.

(** C10.  When the loop of [u] reaches a child whose tag starts with
    OVERLAP, whose own text is absent or blank and whose tail is not
    blank, it writes exactly one block under the speaker context of [u]
    holding the trimmed tail alone, and advances the counter by one. *)
Theorem C10_blank_overlap_tail_only (u : Element) (pre : list Element)
    (c : Element) (post : list Element) (out : file) (tt : string)
    (od : option string) (id : Z) (pt : option (list pyval)) :
  children u = (pre ++ c :: post)%list ->
  startswith "OVERLAP" (tag c) = true ->
  has_text (text c) = false ->
  has_text (tail c) = true ->
  let st := children_loop u tt od pt pre (leading_text u out tt od id) in
  process_utterance u out tt od id pt =
  flush_parent_tail pt
    (children_loop u tt od pt post
       ((fst st ++ [speaker_block u tt od (snd st) (stripped (tail c))])%list,
        snd st + 1)).
Proof.
  intros H Htag Htext Htail st.
  rewrite (process_utterance_at u pre c post); auto.
  fold st. destruct st as [o i]. do 2 f_equal.
  unfold child_step.
  rewrite (startswith_overlap_not_u _ Htag), Htag, Htext,
    (startswith_overlap_not_foreign _ Htag), Htail.
  cbn [andb fst snd]. unfold write, speaker_block.
  now rewrite (truthy_stripped _ Htail).
Qed.

Lemma C10_blank_overlap_scenario :
  process_utterance Samples.overlap_blank [] "ADV" (Some "adv700ju023") 1
    None =
  ([mkBlock VNone (VStr "English") (VStr "S1") (VStr "ADV")
      (VStr "adv700ju023") (VInt 1) (VStr "really")], 2).
Proof.
  exact (C10_blank_overlap_tail_only Samples.overlap_blank []
           (Samples.elt "OVERLAP" [] (Some " ") [] (Some "really")) []
           [] "ADV" (Some "adv700ju023") 1 None
           eq_refl eq_refl eq_refl eq_refl).
Defined.

(** C8.  A child whose tag is exactly FOREIGN is passed over as a whole:
    the walk of [u] gives the same file and the same counter as the walk
    of [u] with that child removed, so neither the text of the child nor
    the tail that follows it is written, blank or not. *)
Theorem C8_foreign_child_and_tail_skipped (u : Element)
    (pre : list Element) (c : Element) (post : list Element) (out : file)
    (tt : string) (od : option string) (id : Z)
    (pt : option (list pyval)) :
  children u = (pre ++ c :: post)%list ->
  tag c = "FOREIGN" ->
  process_utterance u out tt od id pt =
  process_utterance
    (mkElement (tag u) (attrib u) (text u) (tail u) (pre ++ post))
    out tt od id pt.
Proof.
  intros H Htag. rewrite (process_utterance_at u pre c post); auto.
  rewrite process_utterance_unfold. unfold utterance_contents.
  cbn [children]. rewrite children_loop_app. f_equal.
  unfold child_step.
  destruct (children_loop u tt od pt pre (leading_text u out tt od id))
    as [o i] eqn:E.
  rewrite Htag. cbn [startswith andb Ascii.eqb Bool.eqb String.eqb].
  unfold children_loop, leading_text in *. cbn [attrib text] in *.
  now rewrite E.
Qed.

(** The tail "my friend" after a FOREIGN span is not written. *)
Lemma C8_foreign_tail_scenario :
  process_utterance Samples.foreign_tail [] "ADV" (Some "adv700ju023") 1
    None = ([], 1).
Proof.
  exact (C8_foreign_child_and_tail_skipped Samples.foreign_tail []
           (Samples.elt "FOREIGN" [] (Some "bonjour") [] (Some "my friend"))
           [] [] "ADV" (Some "adv700ju023") 1 None eq_refl eq_refl).
Defined.

(** ** Text after a nested utterance *)

(** C9.  Let the walker be entered at [u] with no pending parent text.
    When the loop reaches a child [c] whose tag starts with U and whose
    tail is not blank, the list built for [c] is [pending_for u c], which
    depends on [u] and [c] alone and not on the siblings met before; the
    contents of [c] are written first, then one block holding the trimmed
    tail of [c] under the speaker context of [u], and the loop goes on
    with the siblings that follow.  This holds at every position, hence
    for each of several such siblings in their order. *)
Theorem C9_sibling_tails_each_written (u : Element) (pre : list Element)
    (c : Element) (post : list Element) (out : file) (tt : string)
    (od : option string) (id : Z) :
  children u = (pre ++ c :: post)%list ->
  startswith "U" (tag c) = true ->
  has_text (tail c) = true ->
  let st := children_loop u tt od None pre (leading_text u out tt od id) in
  let st' :=
    utterance_contents c (fst st) tt od (snd st)
      (Some (pending_for u c tt od)) in
  process_utterance u out tt od id None =
  children_loop u tt od None post
    ((fst st' ++ [speaker_block u tt od (snd st') (stripped (tail c))])%list,
     snd st' + 1).
Proof.
  intros H Htag Htail st st'.
  rewrite (process_utterance_at u pre c post); auto.
  rewrite flush_none. fold st. f_equal.
  unfold child_step. destruct st as [o i]. rewrite Htag.
  rewrite process_utterance_unfold. cbn [parent_tail_copy_of].
  fold (pending_for u c tt od). cbn [fst snd] in st'. fold st'.
  destruct st' as [o' i']. now rewrite flush_pending_for, Htail.
Qed.

(** Two sibling turns, each followed by text of the enclosing speaker. *)
Lemma C9_two_siblings_scenario :
  process_utterance Samples.siblings [] "ADV" (Some "adv700ju023") 1 None =
  ([mkBlock VNone (VStr "English") (VStr "S2") (VStr "ADV")
      (VStr "adv700ju023") (VInt 1) (VStr "a");
    mkBlock VNone (VStr "English") (VStr "S1") (VStr "ADV")
      (VStr "adv700ju023") (VInt 2) (VStr "one");
    mkBlock VNone (VStr "English") (VStr "S3") (VStr "ADV")
      (VStr "adv700ju023") (VInt 3) (VStr "b");
    mkBlock VNone (VStr "English") (VStr "S1") (VStr "ADV")
      (VStr "adv700ju023") (VInt 4) (VStr "two")], 5).
Proof.
  exact (C9_sibling_tails_each_written Samples.siblings
           [Samples.elt "U" [("WHO", "S2")] (Some "a") [] (Some "one")]
           (Samples.elt "U" [("WHO", "S3")] (Some "b") [] (Some "two")) []
           [] "ADV" (Some "adv700ju023") 1 eq_refl eq_refl eq_refl).
Defined.

(** Below the first level of nesting the list handed to a nested
    utterance has more than seven items, so the call made for it ends
    without writing the tail kept in that list. *)
Lemma nested_tail_not_written (u c : Element) (tt : string)
    (od : option string) (l : list pyval) (o : file) (i : Z) :
  (7 <= List.length l)%nat ->
  child_step (of_opt (get "NSS" (attrib u))) (VStr (l1_of (attrib u)))
    (of_opt (get "WHO" (attrib u))) tt od (Some l) (o, i) c =
  if startswith "U" (tag c)
  then utterance_contents c o tt od i (Some (l ++ [child_tail_of c])%list)
  else child_step (of_opt (get "NSS" (attrib u))) (VStr (l1_of (attrib u)))
         (of_opt (get "WHO" (attrib u))) tt od None (o, i) c.
Proof.
  intros Hl. unfold child_step.
  destruct (startswith "U" (tag c)); [|reflexivity].
  rewrite process_utterance_unfold.
  destruct l as [|x p]; [simpl in Hl; lia|]. cbn [parent_tail_copy_of].
  apply flush_other_length. rewrite length_app. cbn [List.length] in *. lia.
Qed.

(** C2.  At the first level of nesting the tail is written: under S1,
    "hello there", a nested turn of S2 saying "hi" and the tail "thanks"
    give three blocks, the last one under S1.  One level deeper the code loses the tail: for
    a turn of S3 saying "hi" nested in a turn of S2 that is itself nested
    in a turn of S1, the tail "thanks" that follows the turn of S3 is
    written nowhere, and the whole document yields the single block
    "hi". *)
Theorem C2_tail_after_nested_utterance :
  fst (parse_body (Samples.doc [Samples.nested])) =
    [mkBlock VNone (VStr "English") (VStr "S1") (VStr "ADV")
       (VStr "adv700ju023") (VInt 1) (VStr "hello there");
     mkBlock VNone (VStr "English") (VStr "S2") (VStr "ADV")
       (VStr "adv700ju023") (VInt 2) (VStr "hi");
     mkBlock VNone (VStr "English") (VStr "S1") (VStr "ADV")
       (VStr "adv700ju023") (VInt 3) (VStr "thanks")] /\
  fst (parse_body (Samples.doc [Samples.deep])) =
    [mkBlock VNone (VStr "English") (VStr "S3") (VStr "ADV")
       (VStr "adv700ju023") (VInt 1) (VStr "hi")].
Proof. split; reflexivity. Qed.

(** ** Foreign spans *)

Lemma tag_erase (e : Element) : tag (erase_foreign_text e) = tag e.
Proof. now destruct e. Qed.

Lemma attrib_erase (e : Element) : attrib (erase_foreign_text e) = attrib e.
Proof. now destruct e. Qed.

Lemma tail_erase (e : Element) : tail (erase_foreign_text e) = tail e.
Proof. now destruct e. Qed.

Lemma children_erase (e : Element) :
  children (erase_foreign_text e) = map erase_foreign_text (children e).
Proof. now destruct e. Qed.

Lemma text_erase (e : Element) :
  String.eqb (tag e) "FOREIGN" = false ->
  text (erase_foreign_text e) = text e.
Proof. destruct e as [t a x tl cs]. cbn [tag text erase_foreign_text]. now intros ->. Qed.

Lemma fold_left_map_Forall (A : Type) (f f' : A -> Element -> A)
    (g : Element -> Element) (cs : list Element) :
  Forall (fun c => forall st, f st (g c) = f' st c) cs ->
  forall st, fold_left f (map g cs) st = fold_left f' cs st.
Proof.
  induction 1 as [|c cs Hc _ IH]; intros st; simpl; auto.
  now rewrite Hc, IH.
Qed.

Lemma flat_map_map_Forall (g : Element -> Element)
    (f : Element -> list Element) (cs : list Element) :
  Forall (fun c => f (g c) = map g (f c)) cs ->
  flat_map f (map g cs) = map g (flat_map f cs).
Proof.
  induction 1 as [|c cs Hc _ IH]; simpl; auto.
  now rewrite map_app, Hc, IH.
Qed.

Lemma process_utterance_erase (u : Element) :
  String.eqb (tag u) "FOREIGN" = false ->
  forall (out : file) (tt : string) (od : option string) (id : Z)
         (pt : option (list pyval)),
    process_utterance (erase_foreign_text u) out tt od id pt =
    process_utterance u out tt od id pt.
Proof.
  induction u as [t a x tl cs IH] using Element_children_ind.
  intros Hu out tt od id pt. rewrite !process_utterance_unfold. f_equal.
  set (u := mkElement t a x tl cs) in *.
  unfold utterance_contents, children_loop, leading_text.
  rewrite children_erase, attrib_erase, (text_erase u Hu).
  apply fold_left_map_Forall. cbn [children u].
  eapply Forall_impl; [|exact IH]. intros c Hc [o i]. unfold child_step.
  rewrite tag_erase, tail_erase.
  destruct (startswith "U" (tag c)) eqn:EU.
  { unfold child_tail_of. rewrite tail_erase.
    apply Hc, startswith_u_not_foreign, EU. }
  destruct (startswith "OVERLAP" (tag c)) eqn:EO; [|reflexivity].
  now rewrite (text_erase c (startswith_overlap_not_foreign _ EO)).
Qed.

Lemma iter_erase (tg : string) (e : Element) :
  iter tg (erase_foreign_text e) = map erase_foreign_text (iter tg e).
Proof.
  induction e as [t a x tl cs IH] using Element_children_ind.
  cbn [erase_foreign_text iter]. rewrite map_app.
  rewrite (flat_map_map_Forall _ _ _ IH).
  destruct (String.eqb t tg); reflexivity.
Qed.

Lemma findall_body_children_erase (root : Element) :
  findall_body_children (erase_foreign_text root) =
  map erase_foreign_text (findall_body_children root).
Proof.
  unfold findall_body_children. rewrite children_erase.
  rewrite (flat_map_map_Forall erase_foreign_text (iter "BODY")).
  - apply flat_map_map_Forall, Forall_forall. intros c _.
    apply children_erase.
  - apply Forall_forall. intros c _. apply iter_erase.
Qed.

Lemma iter_tag (tg : string) (e x : Element) :
  In x (iter tg e) -> tag x = tg.
Proof.
  induction e as [t a y tl cs IH] using Element_children_ind.
  cbn [iter]. rewrite in_app_iff, in_flat_map. intros [H | (c & Hc & H)].
  - destruct (String.eqb t tg) eqn:E; [|contradiction].
    destruct H as [<- | []]. now apply String.eqb_eq.
  - rewrite Forall_forall in IH. now apply (IH c).
Qed.

Lemma find_map_erase (p : Element -> bool) (l : list Element) :
  (forall e, p (erase_foreign_text e) = p e) ->
  find p (map erase_foreign_text l) =
  option_map erase_foreign_text (find p l).
Proof.
  intros Hp. induction l as [|e l IH]; simpl; auto.
  rewrite Hp. destruct (p e); auto.
Qed.

Lemma text_type_of_erase (root : Element) :
  text_type_of (erase_foreign_text root) = text_type_of root.
Proof.
  unfold text_type_of, find_term_speechevent.
  rewrite children_erase.
  rewrite (flat_map_map_Forall erase_foreign_text (iter "TERM"));
    [|apply Forall_forall; intros c _; apply iter_erase].
  rewrite find_map_erase; [|intros e; now rewrite attrib_erase].
  destruct (find _ _) as [term|] eqn:E; [|reflexivity].
  cbn [option_map]. apply find_some in E as [E _].
  apply in_flat_map in E as (c & _ & E). apply iter_tag in E.
  rewrite text_erase; [reflexivity | now rewrite E].
Qed.

(** C5.  The file written for a document is the file written for the
    same document with the text of every FOREIGN element removed: no block
    owes anything to the text of a foreign span, whatever that text is.
    In particular a turn holding nothing but the foreign span "bonjour"
    yields no block at all. *)
Theorem C5_foreign_text_never_written :
  (forall root : Element,
      parse_body (erase_foreign_text root) = parse_body root) /\
  parse_body (Samples.doc [Samples.foreign]) = ([], 1).
Proof.
  split; [|reflexivity].
  intros root. unfold parse_body.
  rewrite findall_body_children_erase, text_type_of_erase, attrib_erase.
  apply fold_left_map_Forall, Forall_forall. intros u _ [out id].
  rewrite tag_erase. destruct (startswith "U" (tag u)) eqn:E; [|reflexivity].
  apply process_utterance_erase, startswith_u_not_foreign, E.
Qed.

(** ** The emitter *)

Lemma append_empty_r (s : string) : s ++ "" = s.
Proof. induction s; simpl; congruence. Qed.

Lemma append_assoc (a b c : string) : (a ++ b) ++ c = a ++ b ++ c.
Proof. induction a; simpl; congruence. Qed.

Lemma concat_cons (x : string) (l : list string) :
  String.concat "" (x :: l) = x ++ String.concat "" l.
Proof. destruct l; simpl; [now rewrite append_empty_r | reflexivity]. Qed.

Lemma concat_app (l1 l2 : list string) :
  String.concat "" (l1 ++ l2) = String.concat "" l1 ++ String.concat "" l2.
Proof.
  induction l1 as [|x l1 IH]; [reflexivity|].
  cbn [app]. now rewrite !concat_cons, IH, append_assoc.
Qed.

Lemma file_text_app (f g : file) :
  file_text (f ++ g)%list = file_text f ++ file_text g.
Proof. unfold file_text. now rewrite flat_map_app, concat_app. Qed.

(** C4, as stated, fails: [write] tests its text with [if text:] and does
    no trimming of its own, so a text made of one space is written, and a
    text with a space at each end is written with them. *)
Lemma C4_write_does_not_trim :
  strip " " = "" /\
  write [] (VStr " ") VNone (VStr "English") (VStr "S1") (VStr "ADV")
    (VStr "adv700ju023") (VInt 1) <> [] /\
  map b_text
    (write [] (VStr " hi ") VNone (VStr "English") (VStr "S1") (VStr "ADV")
       (VStr "adv700ju023") (VInt 1)) = [VStr " hi "] /\
  strip " hi " = "hi".
Proof. repeat split; try reflexivity. discriminate. Qed.

(** C4, amended.  [write] leaves the file as it is exactly when its text
    is falsy (the empty string or [None]); for any other text it adds one
    block, made of the eight metadata lines and then the text as it was
    passed, followed by a blank line.  Trimming and the test for blank
    text are done by the walker before it calls [write]: every block of
    every document holds a text that is not empty and has no white space
    at either end. *)
Theorem C4_write_filters_empty_text_only (out : file)
    (text sp_status l1 person_id text_type original_doc utterance_id : pyval)
    (root : Element) :
  (write out text sp_status l1 person_id text_type original_doc utterance_id
     = out <-> truthy text = false) /\
  (truthy text = true ->
   file_text
     (write out text sp_status l1 person_id text_type original_doc
        utterance_id) =
   file_text out ++
   String.concat ""
     [ "# sp_status = " ++ fmt sp_status ++ nl;
       "# l1 = " ++ fmt l1 ++ nl;
       "# person_id = " ++ fmt person_id ++ nl;
       "# discipline = NA" ++ nl;
       "# text_type = " ++ fmt text_type ++ nl;
       "# original_doc = " ++ fmt original_doc ++ nl;
       "# utterance_id = " ++ fmt utterance_id ++ nl;
       "# sentence_id = TBD" ++ nl;
       fmt text ++ nl ++ nl ]) /\
  Forall (fun b => exists t, b_text b = VStr t /\ trimmed t)
    (fst (parse_body root)).
Proof.
  split; [|split].
  - unfold write. destruct (truthy text); split; try congruence.
    intros H. exfalso. apply (f_equal (@List.length block)) in H.
    rewrite length_app in H. cbn [List.length] in H. lia.
  - intros H. unfold write. rewrite H, file_text_app. reflexivity.
  - eapply Forall_impl; [|apply emitted_parse_body].
    intros b (u & id & t & Ht & ->). now exists t.
Qed.

Lemma C4_write_scenario :
  file_text
    (write [] (VStr "yes") (VStr "NS") (VStr "English") (VStr "S2")
       (VStr "ADV") (VStr "adv700ju023") (VInt 2)) =
  "# sp_status = NS" ++ nl ++ "# l1 = English" ++ nl ++
  "# person_id = S2" ++ nl ++ "# discipline = NA" ++ nl ++
  "# text_type = ADV" ++ nl ++ "# original_doc = adv700ju023" ++ nl ++
  "# utterance_id = 2" ++ nl ++ "# sentence_id = TBD" ++ nl ++
  "yes" ++ nl ++ nl.
Proof.
  exact (proj1 (proj2
           (C4_write_filters_empty_text_only [] (VStr "yes") (VStr "NS")
              (VStr "English") (VStr "S2") (VStr "ADV")
              (VStr "adv700ju023") (VInt 2)
              (Samples.doc [Samples.nested]))) eq_refl).
Defined.

(** ** Defaults for missing metadata *)

(** C3, as stated, fails: a turn without WHO and NSS attributes is written
    with the word None after the equals sign, not with an empty value. *)
Lemma C3_absent_speaker_is_rendered_None :
  get "NSS" (attrib Samples.bare) = None /\
  get "WHO" (attrib Samples.bare) = None /\
  flat_map render (fst (parse_body (Samples.doc [Samples.bare]))) =
    [ "# sp_status = None" ++ nl;
      "# l1 = English" ++ nl;
      "# person_id = None" ++ nl;
      "# discipline = NA" ++ nl;
      "# text_type = ADV" ++ nl;
      "# original_doc = adv700ju023" ++ nl;
      "# utterance_id = 1" ++ nl;
      "# sentence_id = TBD" ++ nl;
      "hi" ++ nl ++ nl ] /\
  "# sp_status = None" ++ nl <> "# sp_status = " ++ nl /\
  "# person_id = None" ++ nl <> "# person_id = " ++ nl.
Proof. repeat split; try reflexivity; discriminate. Qed.

(** C3, amended.  Missing metadata never stops the walk.  A turn [u] with
    leading text writes that text first, in a block of nine pieces whose
    metadata lines are all present.  Without a FLANG attribute the l1 line
    reads English; without an NSS or a WHO attribute the sp_status or
    person_id line reads None, which is how the absent value is printed.
    For a document without a SPEECHEVENT term, the text_type line of every
    block reads NA. *)
Theorem C3_missing_metadata_defaults (u : Element) (out : file)
    (tt : string) (od : option string) (id : Z)
    (pt : option (list pyval)) (root : Element) :
  has_text (text u) = true ->
  let b := speaker_block u tt od id (stripped (text u)) in
  (exists rs, fst (process_utterance u out tt od id pt) =
              (out ++ b :: rs)%list) /\
  List.length (render b) = 9%nat /\
  (get "FLANG" (attrib u) = None ->
   nth 1 (render b) "" = "# l1 = English" ++ nl) /\
  (get "NSS" (attrib u) = None ->
   nth 0 (render b) "" = "# sp_status = None" ++ nl) /\
  (get "WHO" (attrib u) = None ->
   nth 2 (render b) "" = "# person_id = None" ++ nl) /\
  (find_term_speechevent root = None ->
   Forall (fun b' => nth 4 (render b') "" = "# text_type = NA" ++ nl)
     (fst (parse_body root))).
Proof.
  intros Hx b. repeat split.
  - rewrite process_utterance_unfold.
    assert (G : grows (leading_text u out tt od id)
                  (flush_parent_tail pt
                     (utterance_contents u out tt od id pt))).
    { eapply grows_trans; [|apply grows_flush].
      apply grows_children_loop. }
    destruct G as (rs & F & _). exists rs. rewrite F.
    unfold leading_text, write. rewrite Hx, (truthy_stripped _ Hx).
    cbn [fst]. now rewrite <- app_assoc.
  - intros H. cbn. unfold l1_of. now rewrite H.
  - intros H. cbn. now rewrite H.
  - intros H. cbn. now rewrite H.
  - intros H. eapply Forall_impl; [|apply emitted_parse_body].
    intros b' (u' & id' & t & _ & ->). unfold text_type_of. now rewrite H.
Qed.

Lemma C3_bare_turn_scenario :
  let b := speaker_block Samples.bare "NA" None 1 "hi" in
  nth 1 (render b) "" = "# l1 = English" ++ nl /\
  nth 0 (render b) "" = "# sp_status = None" ++ nl /\
  nth 2 (render b) "" = "# person_id = None" ++ nl /\
  Forall (fun b' => nth 4 (render b') "" = "# text_type = NA" ++ nl)
    (fst (parse_body
            (Samples.elt "MICASE" [] None
               [Samples.elt "BODY" [] None [Samples.bare] None] None))).
Proof.
  pose proof (C3_missing_metadata_defaults Samples.bare [] "NA" None 1 None
                (Samples.elt "MICASE" [] None
                   [Samples.elt "BODY" [] None [Samples.bare] None] None)
                eq_refl) as H.
  cbv zeta in H. destruct H as (_ & _ & H1 & H0 & H2 & H4).
  exact (conj (H1 eq_refl) (conj (H0 eq_refl) (conj (H2 eq_refl)
           (H4 eq_refl)))).
Defined.

(** ** Malformed documents *)

Lemma main_in_split (output_dir : string)
    (before : list (string * entry)) (item : string * entry)
    (after : list (string * entry)) (w : world) :
  main_in output_dir (before ++ item :: after) w =
  print "Parsed text files created successfully"
    (fold_left (main_step output_dir) after
       (main_step output_dir (fold_left (main_step output_dir) before w)
          item)).
Proof. unfold main_in. now rewrite fold_left_app. Qed.

(** C7.  When [ET.parse] fails for a document, [parseXML] writes no file
    and prints one line naming the document and the error; nothing of the
    walker is run, since there is no tree to walk.  In a batch the loop
    then goes on with the entries that follow, from the world as it was
    before the failure plus that one line.  A batch of three documents
    whose second one is malformed leaves exactly two output files, one
    failure line between two success lines, and the closing line. *)
Theorem C7_parse_failure_is_local :
  (forall (e filename output_dir : string) (w : world),
      parseXML (ParseError e) filename output_dir w =
      mkWorld (files w)
        (stdout w ++ ["Parse error in file " ++ filename ++ ": " ++ e])) /\
  (forall (output_dir : string) (before : list (string * entry))
          (name e : string) (after : list (string * entry)) (w : world),
      main_in output_dir
        (before ++ (name, RegularFile (ParseError e)) :: after) w =
      print "Parsed text files created successfully"
        (fold_left (main_step output_dir) after
           (print ("Parse error in file " ++ splitext_root name ++ ": " ++ e)
              (fold_left (main_step output_dir) before w)))) /\
  (forall (r1 r3 : Element) (e : string),
      main [("a.xml", RegularFile (Tree r1));
            ("b.xml", RegularFile (ParseError e));
            ("c.xml", RegularFile (Tree r3))] (mkWorld [] []) =
      mkWorld
        [("XML_Data/a_Parsed.txt", fst (parse_body r1));
         ("XML_Data/c_Parsed.txt", fst (parse_body r3))]
        ["Created text file: XML_Data/a_Parsed.txt";
         "Parse error in file b: " ++ e;
         "Created text file: XML_Data/c_Parsed.txt";
         "Parsed text files created successfully"]).
Proof.
  split; [|split].
  - reflexivity.
  - intros. now rewrite main_in_split.
  - intros r1 r3 e. unfold main, main_in.
    cbn [fold_left main_step]. unfold parseXML.
    destruct (parse_body r1) as [f1 n1], (parse_body r3) as [f3 n3].
    reflexivity.
Qed.

(** ** The walker only appends *)

Section Shift.

Variable out : file.
Variable k : Z.

Lemma shifted_write (o1 o2 : file) (i1 i2 : Z)
    (text sp_status l1 person_id text_type original_doc : pyval) :
  shifted out k (o1, i1) (o2, i2) ->
  shifted out k
    (write o1 text sp_status l1 person_id text_type original_doc (VInt i1),
     i1 + 1)
    (write o2 text sp_status l1 person_id text_type original_doc (VInt i2),
     i2 + 1).
Proof.
  intros [F N]. cbn [fst snd] in F, N. subst o2 i2. unfold write.
  destruct (truthy text); split; cbn [fst snd]; try lia; auto.
  now rewrite map_app, app_assoc.
Qed.

Lemma shifted_flush (pt : option (list pyval)) (st1 st2 : file * Z) :
  shifted out k st1 st2 ->
  shifted out k (flush_parent_tail pt st1) (flush_parent_tail pt st2).
Proof.
  destruct st1 as [o1 i1], st2 as [o2 i2]. intros H.
  unfold flush_parent_tail. destruct pt as [l|]; [|assumption].
  do 8 (destruct l as [|? l]; try assumption).
  destruct (truthy _); [|assumption]. now apply shifted_write.
Qed.

Lemma shifted_fold (f : file * Z -> Element -> file * Z)
    (cs : list Element) :
  Forall (fun c => forall st1 st2,
              shifted out k st1 st2 ->
              shifted out k (f st1 c) (f st2 c)) cs ->
  forall st1 st2, shifted out k st1 st2 ->
                  shifted out k (fold_left f cs st1) (fold_left f cs st2).
Proof.
  induction 1 as [|c cs Hc _ IH]; intros st1 st2 H; simpl; auto.
Qed.

Lemma shifted_process_utterance (u : Element) :
  forall (tt : string) (od : option string) (pt : option (list pyval))
         (st1 st2 : file * Z),
    shifted out k st1 st2 ->
    shifted out k (process_utterance u (fst st1) tt od (snd st1) pt)
      (process_utterance u (fst st2) tt od (snd st2) pt).
Proof.
  induction u as [t a x tl cs IH] using Element_children_ind.
  intros tt od pt [o1 i1] [o2 i2] H. rewrite !process_utterance_unfold.
  apply shifted_flush. unfold utterance_contents, children_loop.
  apply shifted_fold.
  - cbn [children]. eapply Forall_impl; [|exact IH].
    intros c Hc [p1 j1] [p2 j2] Hs. unfold child_step.
    destruct (startswith "U" (tag c));
      [apply (Hc _ _ _ (p1, j1) (p2, j2) Hs)|].
    destruct (startswith "OVERLAP" (tag c) && has_text (text c));
      [now apply shifted_write|].
    destruct (String.eqb (tag c) "FOREIGN"); [assumption|].
    destruct (has_text (tail c)); [now apply shifted_write | assumption].
  - unfold leading_text. cbn [fst snd].
    destruct (has_text (text _)); [now apply shifted_write | assumption].
Qed.

End Shift.

(** X1.  The walker never reads or changes what is already in the file,
    and the counter it is entered with decides the ids alone: run after
    any file [out] and with the counter moved by [k], it appends the
    blocks it writes into an empty file, each with its id moved by [k],
    and returns the counter moved by [k]. *)
Theorem X1_walker_appends_and_shifts (u : Element) (out : file)
    (tt : string) (od : option string) (id k : Z)
    (pt : option (list pyval)) :
  process_utterance u out tt od (id + k) pt =
  ((out ++ map (renumber k) (fst (process_utterance u [] tt od id pt)))%list,
   snd (process_utterance u [] tt od id pt) + k).
Proof.
  assert (H : shifted out k ([], id) (out, id + k)).
  { split; cbn [fst snd map]; [now rewrite app_nil_r | reflexivity]. }
  apply (shifted_process_utterance out k u tt od pt) in H.
  destruct H as [F N]. cbn [fst snd] in F, N.
  rewrite <- F, <- N. apply surjective_pairing.
Qed.

(** ** One document, one text type and one identifier *)

Lemma text_type_of_nonempty (root : Element) :
  text_type_of root <> EmptyString.
Proof.
  unfold text_type_of. destruct (find_term_speechevent root) as [t|];
    [|discriminate].
  destruct (text t) as [x|]; [|discriminate].
  destruct x; cbn [nonempty]; discriminate.
Qed.

(** X2.  All blocks of a document carry the same text type and the same
    original document: the text of the first SPEECHEVENT term, or NA, and
    the ID attribute of the root, or [None].  The text type is never the
    empty string, and the l1 field is always a string. *)
Theorem X2_document_fields_uniform (root : Element) :
  Forall
    (fun b =>
       b_text_type b = VStr (text_type_of root) /\
       b_original_doc b = of_opt (get "ID" (attrib root)) /\
       exists v, b_l1 b = VStr v)
    (fst (parse_body root)) /\
  text_type_of root <> EmptyString.
Proof.
  split; [|apply text_type_of_nonempty].
  eapply Forall_impl; [|apply emitted_parse_body].
  intros b (u & id & t & _ & ->). cbn. eauto.
Qed.

(** ** What the walker does not read *)

Lemma tag_prune (e : Element) : tag (prune e) = tag e.
Proof. now destruct e. Qed.

Lemma tail_prune (e : Element) : tail (prune e) = tail e.
Proof. now destruct e. Qed.

(** X3.  The walk of an utterance reads, of each child that is not a
    nested utterance, only the tag, the text when the tag starts with
    OVERLAP, and the tail unless the tag is FOREIGN.  The attributes and
    all descendants of such a child, utterances included, and the text of
    a child that is neither an utterance nor an overlap span, leave no
    trace in the file or in the counter. *)
Theorem X3_walker_reads_pruned_tree (u : Element) :
  forall (out : file) (tt : string) (od : option string) (id : Z)
         (pt : option (list pyval)),
    process_utterance (prune u) out tt od id pt =
    process_utterance u out tt od id pt.
Proof.
  induction u as [t a x tl cs IH] using Element_children_ind.
  intros out tt od id pt. rewrite !process_utterance_unfold. f_equal.
  unfold utterance_contents, children_loop, leading_text.
  cbn [prune children attrib text].
  apply fold_left_map_Forall.
  eapply Forall_impl; [|exact IH]. intros c Hc [o i]. unfold child_step.
  destruct (startswith "U" (tag c)) eqn:EU.
  - rewrite tag_prune, EU. unfold child_tail_of. rewrite tail_prune.
    apply Hc.
  - cbn [prune_other tag text tail]. rewrite EU.
    destruct (startswith "OVERLAP" (tag c)) eqn:EO.
    + now rewrite (startswith_overlap_not_foreign _ EO).
    + cbn [andb has_text].
      destruct (String.eqb (tag c) "FOREIGN"); reflexivity.
Qed.

(** ** Tails below the first level of nesting *)

Lemma own_tail_not_read (t : string) (a : list (string * string))
    (x tl tl' : option string) (cs : list Element) (out : file)
    (tt : string) (od : option string) (id : Z)
    (pt : option (list pyval)) :
  process_utterance (mkElement t a x tl cs) out tt od id pt =
  process_utterance (mkElement t a x tl' cs) out tt od id pt.
Proof. reflexivity. Qed.

(** Two pending lists of more than seven items are as good as each
    other. *)
Lemma long_pending_irrelevant (u : Element) :
  forall (out : file) (tt : string) (od : option string) (id : Z)
         (l1 l2 : list pyval),
    (8 <= List.length l1)%nat -> (8 <= List.length l2)%nat ->
    process_utterance u out tt od id (Some l1) =
    process_utterance u out tt od id (Some l2).
Proof.
  induction u as [t a x tl cs IH] using Element_children_ind.
  intros out tt od id l1 l2 H1 H2. rewrite !process_utterance_unfold.
  rewrite !flush_other_length by lia.
  unfold utterance_contents, children_loop. cbn [children].
  generalize (leading_text (mkElement t a x tl cs) out tt od id).
  induction IH as [|c cs Hc _ IHcs]; intros st; [reflexivity|].
  cbn [fold_left]. rewrite <- IHcs. f_equal.
  destruct st as [o i]. unfold child_step.
  destruct (startswith "U" (tag c)); [|reflexivity].
  destruct l1 as [|y1 l1]; [simpl in H1; lia|].
  destruct l2 as [|y2 l2]; [simpl in H2; lia|].
  cbn [parent_tail_copy_of].
  apply Hc; rewrite length_app; cbn [List.length] in *; lia.
Qed.

(** X4.  Once the walker is entered with a pending list of seven items
    or more, which is the case for every utterance nested in a top-level
    one, the tails of all utterances nested below that point are never
    written: the walk gives the same file and counter as the walk of the
    same utterance with those tails removed. *)
Theorem X4_tails_below_first_level_unread (u : Element) :
  forall (out : file) (tt : string) (od : option string) (id : Z)
         (l : list pyval),
    (7 <= List.length l)%nat ->
    process_utterance (drop_nested_tails u) out tt od id (Some l) =
    process_utterance u out tt od id (Some l).
Proof.
  induction u as [t a x tl cs IH] using Element_children_ind.
  intros out tt od id l Hl. rewrite !process_utterance_unfold. f_equal.
  unfold utterance_contents, children_loop, leading_text.
  cbn [drop_nested_tails children attrib text].
  apply fold_left_map_Forall.
  eapply Forall_impl; [|exact IH]. intros c Hc [o i]. unfold child_step.
  destruct (startswith "U" (tag c)) eqn:EU; [|now rewrite EU].
  assert (Et : tag (without_tail (drop_nested_tails c)) = tag c)
    by now destruct c.
  rewrite Et, EU.
  destruct l as [|y l]; [simpl in Hl; lia|]. cbn [parent_tail_copy_of].
  transitivity
    (process_utterance (drop_nested_tails c) o tt od i
       (Some ((y :: l) ++ [child_tail_of c])%list)).
  - unfold without_tail.
    destruct (drop_nested_tails c) as [t' a' x' tl' cs'].
    cbn [tag attrib text children].
    rewrite (own_tail_not_read t' a' x' None tl').
    apply long_pending_irrelevant;
      rewrite length_app; cbn [List.length] in *; lia.
  - apply Hc. rewrite length_app. cbn [List.length] in *. lia.
Qed.

Lemma X4_deep_tail_scenario :
  process_utterance
    (drop_nested_tails
       (Samples.elt "U" [("WHO", "S2")] None
          [Samples.elt "U" [("WHO", "S3")] (Some "hi") [] (Some "thanks")]
          None))
    [] "ADV" None 1
    (Some (pending_for Samples.deep
             (Samples.elt "U" [("WHO", "S2")] None [] None) "ADV" None)) =
  process_utterance
    (Samples.elt "U" [("WHO", "S2")] None
       [Samples.elt "U" [("WHO", "S3")] (Some "hi") [] (Some "thanks")]
       None)
    [] "ADV" None 1
    (Some (pending_for Samples.deep
             (Samples.elt "U" [("WHO", "S2")] None [] None) "ADV" None)).
Proof.
  apply (X4_tails_below_first_level_unread
           (Samples.elt "U" [("WHO", "S2")] None
              [Samples.elt "U" [("WHO", "S3")] (Some "hi") []
                 (Some "thanks")] None)
           [] "ADV" None 1).
  cbn [pending_for List.length]. lia.
Defined.

(** ** Blank transcripts *)

Lemma quiet_contents (u : Element) :
  forall (out : file) (tt : string) (od : option string) (id : Z)
         (pt : option (list pyval)),
    quiet u = true ->
    pt = None \/ (exists l, pt = Some l /\ (7 <= List.length l)%nat) ->
    utterance_contents u out tt od id pt = (out, id).
Proof.
  induction u as [t a x tl cs IH] using Element_children_ind.
  intros out tt od id pt Hq Hpt. cbn [quiet] in Hq.
  apply andb_true_iff in Hq as [Hx Hcs]. apply negb_true_iff in Hx.
  unfold utterance_contents, leading_text, children_loop.
  cbn [text children attrib]. rewrite Hx.
  set (u := mkElement t a x tl cs).
  induction IH as [|c cs' Hc _ IHcs]; [reflexivity|].
  cbn [forallb] in Hcs. apply andb_true_iff in Hcs as [Hcq Hrest].
  cbn [fold_left]. rewrite <- (IHcs Hrest) at 2. f_equal.
  unfold child_step. destruct (startswith "U" (tag c)).
  - apply andb_true_iff in Hcq as [Ht Hcq]. apply negb_true_iff in Ht.
    rewrite process_utterance_unfold. unfold child_tail_of. rewrite Ht.
    destruct Hpt as [-> | (l & -> & Hl)].
    + cbn [parent_tail_copy_of]. rewrite Hc; auto.
      right. eexists. split; [reflexivity|]. cbn [List.length]. lia.
    + destruct l as [|y l]; [simpl in Hl; lia|]. cbn [parent_tail_copy_of].
      rewrite Hc; auto.
      * apply flush_other_length. rewrite length_app.
        cbn [List.length] in *. lia.
      * right. eexists. split; [reflexivity|]. rewrite length_app.
        cbn [List.length] in *. lia.
  - destruct (startswith "OVERLAP" (tag c) && has_text (text c));
      [discriminate|].
    destruct (String.eqb (tag c) "FOREIGN"); [reflexivity|].
    cbn [orb] in Hcq. apply negb_true_iff in Hcq. now rewrite Hcq.
Qed.

(** X5.  A top-level utterance that holds no text the walker would
    write, only blank or absent text and tails in the places it reads,
    leaves the file and the counter as they were. *)
Theorem X5_blank_utterance_writes_nothing (u : Element) (out : file)
    (tt : string) (od : option string) (id : Z) :
  quiet u = true ->
  process_utterance u out tt od id None = (out, id).
Proof.
  intros H. rewrite process_utterance_unfold, flush_none.
  apply quiet_contents; auto.
Qed.

Lemma X5_blank_scenario :
  process_utterance
    (Samples.elt "U" [("WHO", "S1")] (Some "  ")
       [Samples.elt "PAUSE" [] None [] (Some " ");
        Samples.elt "U" [("WHO", "S2")] None [] None] None)
    [] "ADV" None 1 None = ([], 1).
Proof.
  exact (X5_blank_utterance_writes_nothing
           (Samples.elt "U" [("WHO", "S1")] (Some "  ")
              [Samples.elt "PAUSE" [] None [] (Some " ");
               Samples.elt "U" [("WHO", "S2")] None [] None] None)
           [] "ADV" None 1 eq_refl).
Defined.

(** ** File names *)

Lemma rfind_dot_split (p : string) (d : nat) :
  rfind_dot p = Some d ->
  exists e, p = substring 0 d p ++ String "." e /\ rfind_dot e = None.
Proof.
  revert d. induction p as [|c p IH]; intros d; cbn [rfind_dot];
    [discriminate|].
  destruct (rfind_dot p) as [i|] eqn:E.
  - intros H. injection H as <-. destruct (IH i eq_refl) as (e & Hp & He).
    exists e. split; [|assumption]. cbn [substring append]. now f_equal.
  - destruct (Ascii.eqb c ".") eqn:Ec; [|discriminate].
    intros H. injection H as <-. apply Ascii.eqb_eq in Ec. subst c.
    exists p. split; [|assumption]. now destruct p.
Qed.

Lemma rfind_dot_app (stem ext : string) :
  rfind_dot ext = None ->
  rfind_dot (stem ++ String "." ext) = Some (String.length stem).
Proof.
  intros H. induction stem as [|c stem IH].
  - cbn. now rewrite H.
  - cbn [append rfind_dot String.length]. now rewrite IH.
Qed.

Lemma substring_app (stem rest : string) :
  substring 0 (String.length stem) (stem ++ rest) = stem.
Proof.
  induction stem as [|c stem IH]; cbn [append String.length substring].
  - now destruct rest.
  - now rewrite IH.
Qed.

(** X6.  [splitext] cuts a name at its last dot: the name is always the
    root followed by an extension that is empty or begins with a dot and
    holds no other dot. *)
Theorem X6_splitext_root_law (p : string) :
  exists ext : string,
    p = splitext_root p ++ ext /\
    (ext = EmptyString \/
     exists e, ext = String "." e /\ rfind_dot e = None).
Proof.
  unfold splitext_root. destruct (rfind_dot p) as [d|] eqn:E.
  - destruct (has_non_dot (substring 0 d p)).
    + destruct (rfind_dot_split p d E) as (e & Hp & He).
      exists (String "." e). split; [assumption|]. right. now exists e.
    + exists EmptyString. split; [now rewrite append_empty_r | now left].
  - exists EmptyString. split; [now rewrite append_empty_r | now left].
Qed.

(** X7.  For a name made of a stem that is not all dots, a dot and an
    extension without a dot, the root is the stem; the parsed file of
    [stem.ext] is therefore [stem_Parsed.txt] in the output directory. *)
Theorem X7_splitext_root_of_stem (output_dir stem ext : string) :
  has_non_dot stem = true ->
  rfind_dot ext = None ->
  splitext_root (stem ++ String "." ext) = stem /\
  output_path output_dir (stem ++ String "." ext) =
    output_dir ++ "/" ++ stem ++ "_Parsed.txt".
Proof.
  intros Hs He.
  assert (E : splitext_root (stem ++ String "." ext) = stem).
  { unfold splitext_root. rewrite (rfind_dot_app stem ext He).
    now rewrite substring_app, Hs. }
  split; [assumption|]. unfold output_path, path_join. now rewrite E.
Qed.

Lemma X7_transcript_name_scenario :
  splitext_root "adv700ju023.xml" = "adv700ju023" /\
  output_path "XML_Data" "adv700ju023.xml" =
    "XML_Data/adv700ju023_Parsed.txt".
Proof.
  exact (X7_splitext_root_of_stem "XML_Data" "adv700ju023" "xml"
           eq_refl eq_refl).
Defined.

(** ** The batch *)




Lemma read_store (path q : string) (f : file) (fs : list (string * file)) :
  read q (store path f fs) =
  if String.eqb path q then Some f else read q fs.
Proof.
  induction fs as [|[p g] fs IH]; cbn [store read]; [reflexivity|].
  destruct (String.eqb p path) eqn:E; cbn [read].
  - apply String.eqb_eq in E. subst p. now destruct (String.eqb path q).
  - rewrite IH. destruct (String.eqb p q) eqn:Eq; [|reflexivity].
    apply String.eqb_eq in Eq. subst p. now rewrite String.eqb_sym, E.
Qed.

Lemma files_main_step_tree (output_dir filename : string) (root : Element)
    (w : world) :
  files (main_step output_dir w (filename, RegularFile (Tree root))) =
  store (output_path output_dir filename) (fst (parse_body root)) (files w).
Proof.
  cbn [main_step]. unfold parseXML. now destruct (parse_body root).
Qed.

Lemma read_fold (output_dir : string) (listing : list (string * entry))
    (q : string) :
  forall w : world,
    read q (files (fold_left (main_step output_dir) listing w)) =
    match last_written output_dir listing q with
    | Some f => Some f
    | None => read q (files w)
    end.
Proof.
  induction listing as [|[filename e] listing IH]; intros w;
    cbn [fold_left last_written]; [reflexivity|].
  rewrite IH. destruct (last_written output_dir listing q); [reflexivity|].
  destruct e as [[err | root] | ]; try reflexivity.
  rewrite files_main_step_tree, read_store.
  now destruct (String.eqb (output_path output_dir filename) q).
Qed.

(** X9.  After the batch, the file at any path holds the blocks of the
    last listed document that is written to that path; a path that no
    listed document is written to holds what it held before. *)
Theorem X9_batch_last_writer_wins (output_dir : string)
    (listing : list (string * entry)) (q : string) (w : world) :
  read q (files (main_in output_dir listing w)) =
  match last_written output_dir listing q with
  | Some f => Some f
  | None => read q (files w)
  end.
Proof. unfold main_in, print. cbn [files]. apply read_fold. Qed.

Lemma store_store (path : string) (f g : file)
    (fs : list (string * file)) :
  store path g (store path f fs) = store path g fs.
Proof.
  induction fs as [|[p h] fs IH]; cbn [store].
  - now rewrite String.eqb_refl.
  - destruct (String.eqb p path) eqn:E; cbn [store]; rewrite E;
      [reflexivity | now rewrite IH].
Qed.

(** X10.  Two directory entries with the same root name, such as a.xml
    and a.txt, are written to the same path, and the second replaces the
    first: the files after both are the files after the second alone. *)
Theorem X10_same_root_overwrites (output_dir n1 n2 : string)
    (r1 r2 : Element) (w : world) :
  splitext_root n1 = splitext_root n2 ->
  files (main_in output_dir
           [(n1, RegularFile (Tree r1)); (n2, RegularFile (Tree r2))] w) =
  files (main_in output_dir [(n2, RegularFile (Tree r2))] w).
Proof.
  intros H. unfold main_in, print. cbn [files fold_left].
  rewrite !files_main_step_tree. unfold output_path. rewrite H.
  apply store_store.
Qed.

Lemma X10_same_root_scenario :
  files (main_in "XML_Data"
           [("a.xml", RegularFile (Tree (Samples.doc [Samples.nested])));
            ("a.txt", RegularFile (Tree (Samples.doc [Samples.bare])))]
           (mkWorld [] [])) =
  files (main_in "XML_Data"
           [("a.txt", RegularFile (Tree (Samples.doc [Samples.bare])))]
           (mkWorld [] [])).
Proof.
  exact (X10_same_root_overwrites "XML_Data" "a.xml" "a.txt"
           (Samples.doc [Samples.nested]) (Samples.doc [Samples.bare])
           (mkWorld [] []) eq_refl).
Defined.

(** ** The module run as a script *)

Lemma eqb_app_prefix (a x y : string) :
  String.eqb (a ++ x) (a ++ y) = String.eqb x y.
Proof.
  induction a as [|c a IH]; cbn [append String.eqb]; [reflexivity|].
  now rewrite Ascii.eqb_refl.
Qed.

Lemma last_written_same_name (d d' : string)
    (listing : list (string * entry)) (name : string) :
  last_written d listing (path_join d name) =
  last_written d' listing (path_join d' name).
Proof.
  induction listing as [|[filename e] listing IH]; cbn [last_written];
    [reflexivity|].
  rewrite IH. destruct (last_written d' listing _); [reflexivity|].
  destruct e as [[err | root] | ]; try reflexivity.
  unfold output_path, path_join.
  now rewrite !eqb_app_prefix.
Qed.

Lemma last_written_other_dir (listing : list (string * entry))
    (name : string) :
  last_written "XMLs_Parsed" listing (path_join "XML_Data" name) = None /\
  last_written "XML_Data" listing (path_join "XMLs_Parsed" name) = None.
Proof.
  induction listing as [|[filename e] listing [IH1 IH2]];
    cbn [last_written]; [now split|].
  rewrite IH1, IH2. destruct e as [[err | root] | ]; split; reflexivity.
Qed.

(** X11.  Run as a script, the module walks the directory twice, once
    for each definition of [main].  Started with no output file, it
    leaves every parsed file twice, under XML_Data and under XMLs_Parsed,
    with the same blocks, and the second pass leaves the files of the
    first as they were. *)
Theorem X11_script_writes_both_directories
    (listing : list (string * entry)) (name : string) (out : list string) :
  let w := script listing (mkWorld [] out) in
  read (path_join "XML_Data" name) (files w) =
    read (path_join "XMLs_Parsed" name) (files w) /\
  read (path_join "XML_Data" name) (files w) =
    read (path_join "XML_Data" name)
      (files (main listing (mkWorld [] out))).
Proof.
  cbv zeta. unfold script, main', main, main_in, print. cbn [files].
  destruct (last_written_other_dir listing name) as [H1 H2].
  rewrite !read_fold. cbn [files]. rewrite !read_fold, H1, H2.
  cbn [files read].
  split; [|reflexivity].
  now rewrite (last_written_same_name "XML_Data" "XMLs_Parsed").
Qed.

(** ** Documents without utterances *)

Lemma parse_body_no_utterance (root : Element) :
  Forall (fun u => startswith "U" (tag u) = false)
    (findall_body_children root) ->
  parse_body root = ([], 1).
Proof.
  unfold parse_body. generalize (findall_body_children root).
  intros l H. induction H as [|u l Hu _ IH]; cbn [fold_left];
    [reflexivity|].
  now rewrite Hu.
Qed.

(** X12.  A document in which no child of a BODY element has a tag that
    starts with U, for instance one without a BODY, is no error: its
    output file is created all the same, and it is empty. *)
Theorem X12_no_utterance_gives_empty_file (root : Element)
    (filename output_dir : string) (w : world) :
  Forall (fun u => startswith "U" (tag u) = false)
    (findall_body_children root) ->
  read (path_join output_dir (filename ++ "_Parsed.txt"))
    (files (parseXML (Tree root) filename output_dir w)) = Some [] /\
  stdout (parseXML (Tree root) filename output_dir w) =
    (stdout w ++
     [("Created text file: " ++
       path_join output_dir (filename ++ "_Parsed.txt"))%string])%list.
Proof.
  intros H. unfold parseXML. rewrite (parse_body_no_utterance root H).
  cbn [print files stdout]. split; [|reflexivity].
  now rewrite read_store, String.eqb_refl.
Qed.

Lemma X12_no_body_scenario :
  read "XML_Data/empty_Parsed.txt"
    (files (parseXML
              (Tree (Samples.elt "MICASE" [] None
                       [Samples.elt "HEADER" [] None [] None] None))
              "empty" "XML_Data" (mkWorld [] []))) = Some [] /\
  stdout (parseXML
            (Tree (Samples.elt "MICASE" [] None
                     [Samples.elt "HEADER" [] None [] None] None))
            "empty" "XML_Data" (mkWorld [] [])) =
    ["Created text file: XML_Data/empty_Parsed.txt"].
Proof.
  exact (X12_no_utterance_gives_empty_file
           (Samples.elt "MICASE" [] None
              [Samples.elt "HEADER" [] None [] None] None)
           "empty" "XML_Data" (mkWorld [] []) (Forall_nil _)).
Defined.
